(** * dpdk-sys/c: the wrapper over the poll-mode driver's burst interface

    [wrapper.h] and [wrapper.c] declare three functions ([wrte_errno],
    [wrte_eth_rx_burst], [wrte_eth_tx_burst]) and one enumeration
    ([wrte_eth_tx_offload]).  The functions call into the driver; the
    driver itself is not part of the repository.  The embedding keeps
    the two apart: a wrapper is a small program over the driver's
    primitives, and [exec] runs such a program against any driver. *)

From Stdlib Require Import ZArith List Bool Lia.
Import ListNotations.
Local Open Scope Z_scope.

(** ** C integer types, as [Z] with the conversions written out *)

Definition to_uint16 (z : Z) : Z := z mod 2 ^ 16.
Definition to_uint64 (z : Z) : Z := z mod 2 ^ 64.
Definition to_int (z : Z) : Z := (z + 2 ^ 31) mod 2 ^ 32 - 2 ^ 31.

Definition is_uint16 (z : Z) : Prop := 0 <= z < 2 ^ 16.
Definition is_uint64 (z : Z) : Prop := 0 <= z < 2 ^ 64.
Definition is_int (z : Z) : Prop := - 2 ^ 31 <= z < 2 ^ 31.

(** ** The driver seen from the wrapper *)

(** [struct rte_mbuf *]: a buffer handle, never dereferenced here. *)
Definition mbuf : Type := Z.

(** An execution context (the thread that owns one [rte_errno] slot). *)
Definition lcore : Type := nat.

(** What the wrapper can reach: the thread-local [rte_errno] slots and
    the device state [D] kept by the driver. *)
Record world (D : Type) : Type := mkWorld {
  per_lcore_rte_errno : lcore -> Z;
  device : D
}.
Arguments mkWorld {D} _ _.
Arguments per_lcore_rte_errno {D} _ _.
Arguments device {D} _.

(** [rte_errno = v] executed by context [c]; the slot is an [int]. *)
Definition set_rte_errno {D} (c : lcore) (v : Z) (w : world D) : world D :=
  mkWorld (fun c' => if Nat.eqb c' c then to_int v else per_lcore_rte_errno w c')
          (device w).

(** Thread-local storage starts zeroed. *)
Definition context_start {D} (d : D) : world D := mkWorld (fun _ => 0) d.

(** The two burst primitives of a driver.  Each gets the calling
    context, the world, the identifiers, the contents of the array the
    pointer argument designates and the count; it gives back the count
    it returns, the contents of the array afterwards and the new
    world. *)
Record driver (D : Type) : Type := mkDriver {
  rte_eth_rx_burst :
    lcore -> world D -> Z -> Z -> list mbuf -> Z -> Z * list mbuf * world D;
  rte_eth_tx_burst :
    lcore -> world D -> Z -> Z -> list mbuf -> Z -> Z * list mbuf * world D
}.
Arguments mkDriver {D} _ _.
Arguments rte_eth_rx_burst {D} _ _ _ _ _ _ _.
Arguments rte_eth_tx_burst {D} _ _ _ _ _ _ _.

(** One call into the driver, as it appears on the trace of a run. *)
Inductive driver_call : Type :=
| call_rx_burst (port_id queue_id : Z) (rx_pkts : list mbuf) (nb_pkts : Z)
| call_tx_burst (port_id queue_id : Z) (tx_pkts : list mbuf) (nb_pkts : Z).

(** Straight-line code over the driver: read [rte_errno], call a burst
    primitive, return. *)
Inductive prog (R : Type) : Type :=
| Return (r : R)
| ReadErrno (k : Z -> prog R)
| RxBurst (port_id queue_id : Z) (rx_pkts : list mbuf) (nb_pkts : Z)
          (k : Z -> list mbuf -> prog R)
| TxBurst (port_id queue_id : Z) (tx_pkts : list mbuf) (nb_pkts : Z)
          (k : Z -> list mbuf -> prog R).
Arguments Return {R} _.
Arguments ReadErrno {R} _.
Arguments RxBurst {R} _ _ _ _ _.
Arguments TxBurst {R} _ _ _ _ _.

(** ** wrapper.c *)

(** [int wrte_errno() { return rte_errno; }] *)
Definition wrte_errno : prog Z :=
  ReadErrno (fun e => Return e).

(** [uint16_t wrte_eth_rx_burst(uint16_t const port_id,
      uint16_t const queue_id, struct rte_mbuf **rx_pkts,
      uint16_t const nb_pkts)
    { return rte_eth_rx_burst(port_id, queue_id, rx_pkts, nb_pkts); }]

    The result pairs the returned count with the contents of [rx_pkts]
    after the call. *)
Definition wrte_eth_rx_burst (port_id queue_id : Z) (rx_pkts : list mbuf)
    (nb_pkts : Z) : prog (Z * list mbuf) :=
  RxBurst (to_uint16 port_id) (to_uint16 queue_id) rx_pkts (to_uint16 nb_pkts)
          (fun r pkts => Return (to_uint16 r, pkts)).

(** [uint16_t wrte_eth_tx_burst(uint16_t const port_id,
      uint16_t const queue_id, struct rte_mbuf **tx_pkts,
      uint16_t const nb_pkts)
    { return rte_eth_tx_burst(port_id, queue_id, tx_pkts, nb_pkts); }] *)
Definition wrte_eth_tx_burst (port_id queue_id : Z) (tx_pkts : list mbuf)
    (nb_pkts : Z) : prog (Z * list mbuf) :=
  TxBurst (to_uint16 port_id) (to_uint16 queue_id) tx_pkts (to_uint16 nb_pkts)
          (fun r pkts => Return (to_uint16 r, pkts)).

(** ** Running a program against a driver *)

Record outcome (R D : Type) : Type := mkOutcome {
  result : R;
  after : world D;
  calls : list driver_call
}.
Arguments mkOutcome {R D} _ _ _.
Arguments result {R D} _.
Arguments after {R D} _.
Arguments calls {R D} _.

Definition logged {R D} (e : driver_call) (o : outcome R D) : outcome R D :=
  mkOutcome (result o) (after o) (e :: calls o).

Fixpoint exec {D R} (drv : driver D) (c : lcore) (p : prog R) (w : world D)
    : outcome R D :=
  match p with
  | Return r => mkOutcome r w []
  | ReadErrno k => exec drv c (k (per_lcore_rte_errno w c)) w
  | RxBurst port_id queue_id rx_pkts nb_pkts k =>
      let '(r, pkts, w') :=
        rte_eth_rx_burst drv c w port_id queue_id rx_pkts nb_pkts in
      logged (call_rx_burst port_id queue_id rx_pkts nb_pkts)
             (exec drv c (k r pkts) w')
  | TxBurst port_id queue_id tx_pkts nb_pkts k =>
      let '(r, pkts, w') :=
        rte_eth_tx_burst drv c w port_id queue_id tx_pkts nb_pkts in
      logged (call_tx_burst port_id queue_id tx_pkts nb_pkts)
             (exec drv c (k r pkts) w')
  end.

(** Two programs one after the other in the same context. *)
Definition exec_then {D R1 R2} (drv : driver D) (c : lcore)
    (p1 : prog R1) (p2 : prog R2) (w : world D) : R1 * outcome R2 D :=
  let o1 := exec drv c p1 w in
  (result o1, exec drv c p2 (after o1)).

(** ** wrapper.h: [enum wrte_eth_tx_offload : uint64_t] *)

Inductive wrte_eth_tx_offload : Type :=
| VLAN_INSERT
| IPV4_CKSUM
| UDP_CKSUM
| TCP_CKSUM
| SCTP_CKSUM
| TCP_TSO
| UDP_TSO
| OUTER_IPV4_CKSUM
| QINQ_INSERT
| VXLAN_TNL_TSO
| GRE_TNL_TSO
| IPIP_TNL_TSO
| GENEVE_TNL_TSO
| MACSEC_INSERT.

Definition all_tx_offloads : list wrte_eth_tx_offload :=
  [VLAN_INSERT; IPV4_CKSUM; UDP_CKSUM; TCP_CKSUM; SCTP_CKSUM; TCP_TSO;
   UDP_TSO; OUTER_IPV4_CKSUM; QINQ_INSERT; VXLAN_TNL_TSO; GRE_TNL_TSO;
   IPIP_TNL_TSO; GENEVE_TNL_TSO; MACSEC_INSERT].

(** The value of an enumerator: the driver macro of the same name,
    converted to the underlying type [uint64_t].  [macro] is the table
    of the driver's [RTE_ETH_TX_OFFLOAD_*] macros. *)
Definition offload_value (macro : wrte_eth_tx_offload -> Z)
    (f : wrte_eth_tx_offload) : Z :=
  to_uint64 (macro f).

(** "Union these to enable multiple offloads": [a | b] on [uint64_t]. *)
Definition offload_union (a b : Z) : Z := to_uint64 (Z.lor a b).

(** [(v & flag) != 0] *)
Definition offload_test (v flag : Z) : bool := negb (Z.land v flag =? 0).

(** Modelled from the spec: [RTE_BIT64], the driver's one-bit 64-bit
    constant, is not under src/; "each flag occupies one bit of a
    64-bit-wide domain". *)
Definition RTE_BIT64 (n : Z) : Z := to_uint64 (Z.shiftl 1 n).

(** Modelled from the spec: the bit that each [RTE_ETH_TX_OFFLOAD_*]
    macro of the driver names is not under src/; every offload is "a
    distinct flag in a closed set", so the flags take the bits in the
    order of the enumeration. *)
Definition offload_bit (f : wrte_eth_tx_offload) : Z :=
  match f with
  | VLAN_INSERT => 0
  | IPV4_CKSUM => 1
  | UDP_CKSUM => 2
  | TCP_CKSUM => 3
  | SCTP_CKSUM => 4
  | TCP_TSO => 5
  | UDP_TSO => 6
  | OUTER_IPV4_CKSUM => 7
  | QINQ_INSERT => 8
  | VXLAN_TNL_TSO => 9
  | GRE_TNL_TSO => 10
  | IPIP_TNL_TSO => 11
  | GENEVE_TNL_TSO => 12
  | MACSEC_INSERT => 13
  end.

(** Modelled from the spec: the table of the driver's
    [RTE_ETH_TX_OFFLOAD_*] macros, not under src/. *)
Definition RTE_ETH_TX_OFFLOAD (f : wrte_eth_tx_offload) : Z :=
  RTE_BIT64 (offload_bit f).

(** ** A reference driver *)

Module Nic.

(** A transmit queue: the handles handed to the device so far, in
    submission order, and the number of free descriptors. *)
Record tx_queue : Type := mkTx {
  tx_ring : list mbuf;
  tx_room : nat
}.

(** The configured queues.  A receive queue holds the handles the
    device has delivered and the caller has not yet received, in
    delivery order. *)
Record state : Type := mkState {
  rxq : list (Z * Z * list mbuf);
  txq : list (Z * Z * tx_queue)
}.

Definition same_queue (port_id queue_id : Z) (key : Z * Z) : bool :=
  (fst key =? port_id) && (snd key =? queue_id).

Fixpoint find_queue {A} (port_id queue_id : Z) (t : list (Z * Z * A))
    : option A :=
  match t with
  | [] => None
  | (key, q) :: t' =>
      if same_queue port_id queue_id key then Some q
      else find_queue port_id queue_id t'
  end.

Fixpoint set_queue {A} (port_id queue_id : Z) (q' : A)
    (t : list (Z * Z * A)) : list (Z * Z * A) :=
  match t with
  | [] => []
  | (key, q) :: t' =>
      if same_queue port_id queue_id key then (key, q') :: t'
      else (key, q) :: set_queue port_id queue_id q' t'
  end.

(** The handles the device side owns: those waiting in a receive
    queue and those sitting in a transmit ring. *)
Definition held (s : state) : list mbuf :=
  flat_map (fun e => snd e) (rxq s)
  ++ flat_map (fun e => tx_ring (snd e)) (txq s).

Definition owns (s : state) (h : mbuf) : bool :=
  existsb (Z.eqb h) (held s).

(** "Exactly one owner exists at any instant": no handle is held
    twice. *)
Definition single_owner (s : state) : Prop := NoDup (held s).

(** The error a burst on an unconfigured queue leaves in [rte_errno]
    ([ENODEV]). *)
Definition fault : Z := 19.

(** Modelled from the spec: [rte_eth_rx_burst] is the driver's
    primitive and is not under src/.  It fills the first
    [actual_count] slots with handles drawn from the queue in delivery
    order, [actual_count] being what is pending, at most [nb_pkts];
    it leaves the other slots alone and advances the queue by
    [actual_count].  On identifiers that name no configured queue it
    returns zero and leaves a nonzero error. *)
Definition rx_burst (c : lcore) (w : world state)
    (port_id queue_id : Z) (rx_pkts : list mbuf) (nb_pkts : Z)
    : Z * list mbuf * world state :=
  match find_queue port_id queue_id (rxq (device w)) with
  | None => (0, rx_pkts, set_rte_errno c fault w)
  | Some pending =>
      let k := Nat.min (Z.to_nat nb_pkts) (length pending) in
      (Z.of_nat k,
       firstn k pending ++ skipn k rx_pkts,
       mkWorld (per_lcore_rte_errno w)
         (mkState
            (set_queue port_id queue_id (skipn k pending) (rxq (device w)))
            (txq (device w))))
  end.

(** Modelled from the spec: [rte_eth_tx_burst] is the driver's
    primitive and is not under src/.  It accepts the first
    [actual_count] handles, as many as the ring has room for, at most
    [nb_pkts]; they enter the ring in submission order; the array is
    not written.  On identifiers that name no configured queue it
    returns zero and leaves a nonzero error. *)
Definition tx_burst (c : lcore) (w : world state)
    (port_id queue_id : Z) (tx_pkts : list mbuf) (nb_pkts : Z)
    : Z * list mbuf * world state :=
  match find_queue port_id queue_id (txq (device w)) with
  | None => (0, tx_pkts, set_rte_errno c fault w)
  | Some q =>
      let k := Nat.min (Z.to_nat nb_pkts) (tx_room q) in
      (Z.of_nat k,
       tx_pkts,
       mkWorld (per_lcore_rte_errno w)
         (mkState
            (rxq (device w))
            (set_queue port_id queue_id
               (mkTx (tx_ring q ++ firstn k tx_pkts) (tx_room q - k))
               (txq (device w)))))
  end.

Definition drv : driver state := mkDriver rx_burst tx_burst.

End Nic.

(** What a burst wrapper hands back, in the shape of what a driver
    primitive hands back. *)
Definition returned {D} (o : outcome (Z * list mbuf) D)
    : Z * list mbuf * world D :=
  (fst (result o), snd (result o), after o).

(** A device with no queue configured, in a fresh context. *)
Definition unconfigured : world Nic.state :=
  context_start (Nic.mkState [] []).

(** The scenarios of the spec: 32 packets wait on receive queue 0 of
    port 0, and transmit queue 1 of port 0 has room for 10 more
    descriptors. *)
Definition delivered : list mbuf := map Z.of_nat (seq 1000 32).

Definition scenario : world Nic.state :=
  context_start
    (Nic.mkState [((0, 0), delivered)] [((0, 1), Nic.mkTx [] 10)]).

(** A receive array of 64 slots with earlier contents, and 50 handles
    of the caller's to transmit. *)
Definition rx_array : list mbuf := map Z.of_nat (seq 5000 64).
Definition tx_array : list mbuf := map Z.of_nat (seq 2000 50).

(** The union of a list of offloads: [f1 | f2 | ... | fn], and [0] for
    no offload at all. *)
Definition offload_request (macro : wrte_eth_tx_offload -> Z)
    (l : list wrte_eth_tx_offload) : Z :=
  fold_right (fun f acc => offload_union (offload_value macro f) acc) 0 l.


(** * Properties *)

(** ** Integer conversions *)

Lemma to_uint16_range z : is_uint16 (to_uint16 z).
Proof. unfold is_uint16, to_uint16. apply Z.mod_pos_bound. lia. Qed.

Lemma to_uint16_id z : is_uint16 z -> to_uint16 z = z.
Proof. unfold is_uint16, to_uint16. intros H. apply Z.mod_small. exact H. Qed.

Lemma to_uint16_idem z : to_uint16 (to_uint16 z) = to_uint16 z.
Proof. apply to_uint16_id, to_uint16_range. Qed.

Lemma to_uint16_le z : 0 <= z -> to_uint16 z <= z.
Proof. unfold to_uint16. intros H. apply Z.mod_le; lia. Qed.

Lemma to_uint64_range z : is_uint64 (to_uint64 z).
Proof. unfold is_uint64, to_uint64. apply Z.mod_pos_bound. lia. Qed.

Lemma to_uint64_id z : is_uint64 z -> to_uint64 z = z.
Proof. unfold is_uint64, to_uint64. intros H. apply Z.mod_small. exact H. Qed.

Lemma to_int_id z : is_int z -> to_int z = z.
Proof.
  unfold is_int, to_int. intros H.
  rewrite Z.mod_small; lia.
Qed.

(** ** The wrappers against an arbitrary driver *)

Section Wrapper.

Context {D : Type}.
Variable drv : driver D.
Variable c : lcore.


Lemma exec_wrte_eth_rx_burst (w : world D) port_id queue_id pkts nb_pkts :
  exec drv c (wrte_eth_rx_burst port_id queue_id pkts nb_pkts) w =
  let '(r, pkts', w') :=
    rte_eth_rx_burst drv c w (to_uint16 port_id) (to_uint16 queue_id) pkts
      (to_uint16 nb_pkts) in
  mkOutcome (to_uint16 r, pkts') w'
    [call_rx_burst (to_uint16 port_id) (to_uint16 queue_id) pkts
       (to_uint16 nb_pkts)].
Proof.
  cbn. destruct (rte_eth_rx_burst drv c w _ _ _ _) as [[r pkts'] w'].
  reflexivity.
Qed.

Lemma exec_wrte_eth_tx_burst (w : world D) port_id queue_id pkts nb_pkts :
  exec drv c (wrte_eth_tx_burst port_id queue_id pkts nb_pkts) w =
  let '(r, pkts', w') :=
    rte_eth_tx_burst drv c w (to_uint16 port_id) (to_uint16 queue_id) pkts
      (to_uint16 nb_pkts) in
  mkOutcome (to_uint16 r, pkts') w'
    [call_tx_burst (to_uint16 port_id) (to_uint16 queue_id) pkts
       (to_uint16 nb_pkts)].
Proof.
  cbn. destruct (rte_eth_tx_burst drv c w _ _ _ _) as [[r pkts'] w'].
  reflexivity.
Qed.

(** C4: each burst wrapper is a pass-through.  For arguments of the
    interface type and a driver primitive that returns a [uint16_t],
    the wrapper returns exactly what the primitive returns on the same
    (port, queue, array, count), leaves the array and the world as the
    primitive left them, and has called the primitive once: no retry,
    no clamping, no change to an argument. *)
Theorem wrte_burst_pass_through (w : world D) port_id queue_id pkts nb_pkts :
  is_uint16 port_id -> is_uint16 queue_id -> is_uint16 nb_pkts ->
  is_uint16
    (fst (fst (rte_eth_rx_burst drv c w port_id queue_id pkts nb_pkts))) ->
  is_uint16
    (fst (fst (rte_eth_tx_burst drv c w port_id queue_id pkts nb_pkts))) ->
  let rx := exec drv c (wrte_eth_rx_burst port_id queue_id pkts nb_pkts) w in
  let tx := exec drv c (wrte_eth_tx_burst port_id queue_id pkts nb_pkts) w in
  returned rx = rte_eth_rx_burst drv c w port_id queue_id pkts nb_pkts
  /\ calls rx = [call_rx_burst port_id queue_id pkts nb_pkts]
  /\ returned tx = rte_eth_tx_burst drv c w port_id queue_id pkts nb_pkts
  /\ calls tx = [call_tx_burst port_id queue_id pkts nb_pkts].
Proof.
  intros Hp Hq Hn Hrx Htx rx tx. subst rx tx.
  rewrite exec_wrte_eth_rx_burst, exec_wrte_eth_tx_burst.
  rewrite (to_uint16_id _ Hp), (to_uint16_id _ Hq), (to_uint16_id _ Hn).
  destruct (rte_eth_rx_burst drv c w port_id queue_id pkts nb_pkts)
    as [[r1 b1] w1].
  destruct (rte_eth_tx_burst drv c w port_id queue_id pkts nb_pkts)
    as [[r2 b2] w2].
  cbn in Hrx, Htx. unfold returned. cbn.
  rewrite (to_uint16_id _ Hrx), (to_uint16_id _ Htx).
  repeat split; reflexivity.
Qed.

(** C8: the wrappers validate nothing.  Whatever the port and queue
    identifiers, configured or not, a wrapper calls the driver, once,
    with those identifiers unchanged, and what it hands back is the
    driver's answer to that call; no path returns without the
    driver. *)
Theorem wrte_burst_forwards_identifiers (w : world D)
    port_id queue_id pkts nb_pkts :
  is_uint16 port_id -> is_uint16 queue_id ->
  let rx := exec drv c (wrte_eth_rx_burst port_id queue_id pkts nb_pkts) w in
  let tx := exec drv c (wrte_eth_tx_burst port_id queue_id pkts nb_pkts) w in
  let n := to_uint16 nb_pkts in
  let drx := rte_eth_rx_burst drv c w port_id queue_id pkts n in
  let dtx := rte_eth_tx_burst drv c w port_id queue_id pkts n in
  calls rx = [call_rx_burst port_id queue_id pkts n]
  /\ returned rx = (to_uint16 (fst (fst drx)), snd (fst drx), snd drx)
  /\ calls tx = [call_tx_burst port_id queue_id pkts n]
  /\ returned tx = (to_uint16 (fst (fst dtx)), snd (fst dtx), snd dtx).
Proof.
  intros Hp Hq rx tx n drx dtx. subst rx tx n drx dtx.
  rewrite exec_wrte_eth_rx_burst, exec_wrte_eth_tx_burst.
  rewrite (to_uint16_id _ Hp), (to_uint16_id _ Hq).
  destruct (rte_eth_rx_burst drv c w port_id queue_id pkts _)
    as [[r1 b1] w1].
  destruct (rte_eth_tx_burst drv c w port_id queue_id pkts _)
    as [[r2 b2] w2].
  repeat split; reflexivity.
Qed.

(** C9: the interface is 16 bits wide.  Whatever integers are passed,
    the count a wrapper returns is at most 65535, the driver is asked
    for at most 65535 buffers, under identifiers below 65536, and a
    call behaves as the call on the arguments reduced modulo 2^16. *)
Theorem wrte_burst_uint16_interface (w : world D)
    port_id queue_id pkts nb_pkts :
  let rx := exec drv c (wrte_eth_rx_burst port_id queue_id pkts nb_pkts) w in
  let tx := exec drv c (wrte_eth_tx_burst port_id queue_id pkts nb_pkts) w in
  let p := port_id mod 65536 in
  let q := queue_id mod 65536 in
  let n := nb_pkts mod 65536 in
  (0 <= fst (result rx) <= 65535 /\ 0 <= fst (result tx) <= 65535)
  /\ (0 <= p <= 65535 /\ 0 <= q <= 65535 /\ 0 <= n <= 65535)
  /\ calls rx = [call_rx_burst p q pkts n]
  /\ calls tx = [call_tx_burst p q pkts n]
  /\ rx = exec drv c (wrte_eth_rx_burst p q pkts n) w
  /\ tx = exec drv c (wrte_eth_tx_burst p q pkts n) w.
Proof.
  intros rx tx p q n. subst rx tx p q n.
  change 65536 with (2 ^ 16).
  fold (to_uint16 port_id) (to_uint16 queue_id) (to_uint16 nb_pkts).
  rewrite !exec_wrte_eth_rx_burst, !exec_wrte_eth_tx_burst.
  rewrite !to_uint16_idem.
  pose proof (to_uint16_range port_id) as Hp.
  pose proof (to_uint16_range queue_id) as Hq.
  pose proof (to_uint16_range nb_pkts) as Hn.
  destruct (rte_eth_rx_burst drv c w _ _ pkts _) as [[r1 b1] w1].
  destruct (rte_eth_tx_burst drv c w _ _ pkts _) as [[r2 b2] w2].
  cbn [result calls fst].
  pose proof (to_uint16_range r1) as H1.
  pose proof (to_uint16_range r2) as H2.
  unfold is_uint16 in *.
  repeat split; try reflexivity; lia.
Qed.

(** C10: reading the error code changes nothing.  [wrte_errno] leaves
    the world, the error slot included, as it found it, so a second
    read right after the first returns the same value. *)
Theorem wrte_errno_read_twice (w : world D) :
  let first := exec drv c wrte_errno w in
  let both := exec_then drv c wrte_errno wrte_errno w in
  after first = w
  /\ after (snd both) = w
  /\ fst both = result first
  /\ result (snd both) = fst both.
Proof. cbn. repeat split; reflexivity. Qed.

(** C3, amended: [wrte_errno] takes nothing, calls nothing, always
    returns, and returns what the error slot of the calling context
    holds: the value last stored there by that context, whatever other
    contexts stored, and zero in a context where nothing was stored
    since it started.  The read does not reset the slot. *)
Theorem wrte_errno_returns_slot (w : world D) :
  let o := exec drv c wrte_errno w in
  result o = per_lcore_rte_errno w c
  /\ after o = w
  /\ calls o = []
  /\ (forall v, result (exec drv c wrte_errno (set_rte_errno c v w))
                = to_int v)
  /\ (forall c' v,
        result (exec drv c wrte_errno (set_rte_errno c' v w))
        = if Nat.eqb c c' then to_int v else per_lcore_rte_errno w c)
  /\ result (exec drv c wrte_errno (context_start (device w))) = 0.
Proof.
  cbn. repeat split; try reflexivity.
  intros v. rewrite Nat.eqb_refl. reflexivity.
Qed.

End Wrapper.

(** A range side condition on closed terms, by evaluation. *)
Ltac by_evaluation :=
  unfold is_uint16, is_uint64, is_int;
  vm_compute; repeat split; solve [reflexivity | discriminate].

Lemma wrte_burst_pass_through_witness :
  let rx := exec Nic.drv 0%nat (wrte_eth_rx_burst 0 0 rx_array 64) scenario in
  let tx := exec Nic.drv 0%nat (wrte_eth_tx_burst 0 0 rx_array 64) scenario in
  returned rx = Nic.rx_burst 0%nat scenario 0 0 rx_array 64
  /\ calls rx = [call_rx_burst 0 0 rx_array 64]
  /\ returned tx = Nic.tx_burst 0%nat scenario 0 0 rx_array 64
  /\ calls tx = [call_tx_burst 0 0 rx_array 64].
Proof.
  apply (wrte_burst_pass_through Nic.drv 0%nat scenario 0 0 rx_array 64);
    by_evaluation.
Defined.

Lemma wrte_burst_forwards_identifiers_witness :
  calls (exec Nic.drv 0%nat (wrte_eth_rx_burst 7 9 rx_array 64) unconfigured)
  = [call_rx_burst 7 9 rx_array 64]
  /\ calls (exec Nic.drv 0%nat (wrte_eth_tx_burst 7 9 tx_array 50) unconfigured)
     = [call_tx_burst 7 9 tx_array 50].
Proof.
  pose proof (wrte_burst_forwards_identifiers Nic.drv 0%nat unconfigured
                7 9 rx_array 64 ltac:(by_evaluation) ltac:(by_evaluation))
    as [Hrx _].
  pose proof (wrte_burst_forwards_identifiers Nic.drv 0%nat unconfigured
                7 9 tx_array 50 ltac:(by_evaluation) ltac:(by_evaluation))
    as [_ [_ [Htx _]]].
  split; [exact Hrx | exact Htx].
Defined.

(** C3 as the spec words it has the error code read as zero whenever
    nothing failed since the previous read.  A burst on an unconfigured
    queue leaves error 19; the first read returns 19, and so does the
    second, with nothing between the two. *)
Lemma wrte_errno_second_read_not_zero :
  let failed :=
    after (exec Nic.drv 0%nat (wrte_eth_rx_burst 0 0 rx_array 64)
             unconfigured) in
  let both := exec_then Nic.drv 0%nat wrte_errno wrte_errno failed in
  fst both = 19 /\ result (snd both) = 19 /\ result (snd both) <> 0.
Proof. vm_compute. repeat split; discriminate. Qed.

(** ** The offload flags *)

Lemma lor_uint64 a b : is_uint64 a -> is_uint64 b -> is_uint64 (Z.lor a b).
Proof.
  unfold is_uint64. intros [Ha Ha'] [Hb Hb'].
  assert (H0 : 0 <= Z.lor a b) by (apply Z.lor_nonneg; split; assumption).
  split; [exact H0|].
  destruct (Z.eq_dec (Z.lor a b) 0) as [E|E]; [rewrite E; lia|].
  apply Z.log2_lt_pow2; [lia|].
  rewrite Z.log2_lor by assumption.
  assert (La : Z.log2 a < 64).
  { destruct (Z.eq_dec a 0) as [->|]; [cbn; lia|].
    apply Z.log2_lt_pow2; lia. }
  assert (Lb : Z.log2 b < 64).
  { destruct (Z.eq_dec b 0) as [->|]; [cbn; lia|].
    apply Z.log2_lt_pow2; lia. }
  lia.
Qed.

Lemma offload_union_lor a b :
  is_uint64 a -> is_uint64 b -> offload_union a b = Z.lor a b.
Proof.
  intros Ha Hb. unfold offload_union.
  apply to_uint64_id, lor_uint64; assumption.
Qed.

Section Offload.

(** The driver's macros, whatever their values. *)
Variable macro : wrte_eth_tx_offload -> Z.

Let value := offload_value macro.

(** C6: flags combine by bitwise or over their 64-bit values, and for
    any two declared flags the combination is commutative and
    idempotent. *)
Theorem offload_union_comm_idem (A B : wrte_eth_tx_offload) :
  offload_union (value A) (value B) = Z.lor (value A) (value B)
  /\ offload_union (value A) (value B) = offload_union (value B) (value A)
  /\ offload_union (value A) (value A) = value A.
Proof.
  assert (HA : is_uint64 (value A)) by apply to_uint64_range.
  assert (HB : is_uint64 (value B)) by apply to_uint64_range.
  repeat split.
  - apply offload_union_lor; assumption.
  - unfold offload_union. rewrite Z.lor_comm. reflexivity.
  - rewrite offload_union_lor by assumption. apply Z.lor_diag.
Qed.

End Offload.

(** C7: there are 14 flags; the value of each is the single bit
    [2 ^ offload_bit f] with [offload_bit f] below 64, so the conversion
    to [uint64_t] truncates nothing; the 14 values are pairwise
    distinct; and in the union of two flags exactly those two test as
    present. *)
Theorem tx_offload_one_bit_each :
  let value := offload_value RTE_ETH_TX_OFFLOAD in
  (length all_tx_offloads = 14%nat
   /\ NoDup all_tx_offloads
   /\ forall f, In f all_tx_offloads)
  /\ (forall f,
        0 <= offload_bit f < 64
        /\ value f = 2 ^ offload_bit f
        /\ value f = Z.shiftl 1 (offload_bit f)
        /\ is_uint64 (value f))
  /\ NoDup (map value all_tx_offloads)
  /\ (forall A B,
        offload_test (offload_union (value A) (value B)) (value A) = true
        /\ offload_test (offload_union (value A) (value B)) (value B) = true)
  /\ (forall A B C,
        offload_test (offload_union (value A) (value B)) (value C) = true
        <-> C = A \/ C = B).
Proof.
  cbv zeta. repeat apply conj.
  - reflexivity.
  - unfold all_tx_offloads.
    repeat (constructor; [cbn; intuition discriminate|]). constructor.
  - intros f. destruct f; cbn; tauto.
  - intros f. destruct f; by_evaluation.
  - cbv [all_tx_offloads map].
    repeat (constructor; [vm_compute; intuition discriminate|]). constructor.
  - intros A B. destruct A, B; vm_compute; split; reflexivity.
  - intros A B C. destruct A, B, C; vm_compute;
      (split; [intros H; first [discriminate H | left; reflexivity
                                | right; reflexivity]
              | intros [H|H]; first [reflexivity | discriminate H]]).
Qed.

(** ** The reference driver *)

Section NicFacts.

Lemma nodup_app_apart {A} (l1 l2 : list A) (a : A) :
  NoDup (l1 ++ l2) -> In a l1 -> ~ In a l2.
Proof.
  induction l1 as [|x l1 IH]; cbn; intros N H; [contradiction|].
  inversion N as [|y l Hx N']; subst.
  destruct H as [->|H].
  - intros Ha. apply Hx, in_or_app. right. exact Ha.
  - apply IH; assumption.
Qed.

Lemma owns_In (s : Nic.state) (h : mbuf) :
  Nic.owns s h = true <-> In h (Nic.held s).
Proof.
  unfold Nic.owns. rewrite existsb_exists. split.
  - intros [x [Hx E]]. apply Z.eqb_eq in E. subst x. exact Hx.
  - intros H. exists h. split; [exact H | apply Z.eqb_refl].
Qed.

Lemma owns_not_In (s : Nic.state) (h : mbuf) :
  Nic.owns s h = false <-> ~ In h (Nic.held s).
Proof.
  rewrite <- owns_In. destruct (Nic.owns s h); split; intros H;
    try reflexivity; try discriminate; try (intros E; discriminate E).
  exfalso. apply H. reflexivity.
Qed.

Context {A : Type}.
Variable g : A -> list mbuf.

(** Replacing the queue found under a key replaces its handles in
    place and touches no other queue. *)
Lemma flat_map_set_queue port_id queue_id (q q' : A) (t : list (Z * Z * A)) :
  Nic.find_queue port_id queue_id t = Some q ->
  exists l1 l2,
    flat_map (fun e => g (snd e)) t = l1 ++ g q ++ l2
    /\ flat_map (fun e => g (snd e)) (Nic.set_queue port_id queue_id q' t)
       = l1 ++ g q' ++ l2.
Proof.
  induction t as [|[key x] t IH]; cbn; intros H; [discriminate|].
  destruct (Nic.same_queue port_id queue_id key).
  - injection H as ->. exists [], (flat_map (fun e => g (snd e)) t).
    split; reflexivity.
  - destruct (IH H) as [l1 [l2 [E1 E2]]].
    exists (g x ++ l1), l2. cbn. rewrite E1, E2, <- !app_assoc.
    split; reflexivity.
Qed.

Lemma find_queue_set_queue port_id queue_id (q q' : A)
    (t : list (Z * Z * A)) :
  Nic.find_queue port_id queue_id t = Some q ->
  Nic.find_queue port_id queue_id (Nic.set_queue port_id queue_id q' t)
  = Some q'.
Proof.
  induction t as [|[key x] t IH]; cbn; intros H; [discriminate|].
  destruct (Nic.same_queue port_id queue_id key) eqn:E; cbn; rewrite E.
  - reflexivity.
  - apply IH, H.
Qed.

End NicFacts.

(** The count the reference driver settles on fits the interface. *)
Lemma burst_count_fits (n : Z) (avail : nat) :
  0 <= n ->
  let k := Nat.min (Z.to_nat (to_uint16 n)) avail in
  to_uint16 (Z.of_nat k) = Z.of_nat k
  /\ 0 <= Z.of_nat k <= n
  /\ (k <= avail)%nat
  /\ (k <= Z.to_nat n)%nat.
Proof.
  intros Hn k.
  pose proof (to_uint16_range n) as Hr. pose proof (to_uint16_le n Hn) as Hle.
  unfold is_uint16 in Hr.
  assert (Hk : 0 <= Z.of_nat k <= to_uint16 n) by (subst k; lia).
  repeat split; try lia.
  apply to_uint16_id. unfold is_uint16. lia.
Qed.

Section Receive.

Variable c : lcore.
Variable w : world Nic.state.
Variables port_id queue_id : Z.
Variable pending : list mbuf.
Variable rx_pkts : list mbuf.
Variable nb_pkts : Z.

Hypothesis port_ok : is_uint16 port_id.
Hypothesis queue_ok : is_uint16 queue_id.
Hypothesis configured :
  Nic.find_queue port_id queue_id (Nic.rxq (device w)) = Some pending.

Let k := Nat.min (Z.to_nat (to_uint16 nb_pkts)) (length pending).

Lemma exec_rx_configured :
  exec Nic.drv c (wrte_eth_rx_burst port_id queue_id rx_pkts nb_pkts) w =
  mkOutcome
    (to_uint16 (Z.of_nat k), firstn k pending ++ skipn k rx_pkts)
    (mkWorld (per_lcore_rte_errno w)
       (Nic.mkState
          (Nic.set_queue port_id queue_id (skipn k pending)
             (Nic.rxq (device w)))
          (Nic.txq (device w))))
    [call_rx_burst port_id queue_id rx_pkts (to_uint16 nb_pkts)].
Proof.
  rewrite exec_wrte_eth_rx_burst.
  rewrite (to_uint16_id _ port_ok), (to_uint16_id _ queue_ok).
  cbn [rte_eth_rx_burst Nic.drv]. unfold Nic.rx_burst.
  rewrite configured. reflexivity.
Qed.

Hypothesis count_ok : 0 <= nb_pkts.
Hypothesis capacity_ok : nb_pkts <= Z.of_nat (length rx_pkts).

Let o := exec Nic.drv c (wrte_eth_rx_burst port_id queue_id rx_pkts nb_pkts) w.
Let actual := fst (result o).
Let filled := snd (result o).

Lemma rx_actual : actual = Z.of_nat k /\ filled = firstn k pending ++ skipn k rx_pkts.
Proof.
  subst actual filled o. rewrite exec_rx_configured. cbn.
  destruct (burst_count_fits nb_pkts (length pending) count_ok) as [E _].
  fold k in E. rewrite E. split; reflexivity.
Qed.

Lemma rx_k_bounds :
  0 <= Z.of_nat k <= nb_pkts
  /\ (k <= length pending)%nat /\ (k <= length rx_pkts)%nat
  /\ length (firstn k pending) = k.
Proof.
  destruct (burst_count_fits nb_pkts (length pending) count_ok)
    as [_ [H1 [H2 H3]]].
  fold k in H1, H2, H3.
  repeat split; try lia.
  rewrite length_firstn. lia.
Qed.

Lemma rx_filled_shape :
  length filled = length rx_pkts
  /\ firstn k filled = firstn k pending
  /\ skipn k filled = skipn k rx_pkts.
Proof.
  destruct rx_actual as [_ Ef].
  destruct rx_k_bounds as [Hk [Hp [Hb Hl]]].
  rewrite Ef. repeat split.
  - rewrite length_app, Hl, length_skipn. lia.
  - rewrite firstn_app, Hl, Nat.sub_diag, firstn_firstn, Nat.min_id.
    cbn. apply app_nil_r.
  - rewrite skipn_app, Hl, Nat.sub_diag.
    rewrite skipn_all2 by lia. reflexivity.
Qed.

(** C1: on a configured (port, queue) and for a count that is not
    negative and within the array, the receive wrapper returns a count
    between zero and the request; the slots below that count hold what
    was taken from the queue and no other slot of the array changes;
    it returns after a single call to the driver, and a count of zero
    (nothing pending) records no error. *)
Theorem rx_burst_count_within_request :
  0 <= actual <= nb_pkts
  /\ length filled = length rx_pkts
  /\ firstn (Z.to_nat actual) filled = firstn (Z.to_nat actual) pending
  /\ skipn (Z.to_nat actual) filled = skipn (Z.to_nat actual) rx_pkts
  /\ calls o = [call_rx_burst port_id queue_id rx_pkts (to_uint16 nb_pkts)]
  /\ per_lcore_rte_errno (after o) = per_lcore_rte_errno w
  /\ (pending = [] -> actual = 0).
Proof.
  destruct rx_actual as [Ea _].
  destruct rx_k_bounds as [Hk _].
  destruct rx_filled_shape as [Hlen [Hfst Hskp]].
  rewrite Ea, Nat2Z.id.
  repeat split; try lia; try assumption.
  - subst o. rewrite exec_rx_configured. reflexivity.
  - subst o. rewrite exec_rx_configured. reflexivity.
  - intros E. subst k. rewrite E. cbn. rewrite Nat.min_0_r. reflexivity.
Qed.

Hypothesis one_owner : Nic.single_owner (device w).

(** C5: after the receive wrapper has returned [actual], the slots
    below [actual] hold pairwise distinct handles, each taken from the
    device, which no longer holds it; every slot from [actual] up to
    the request, and beyond, keeps what it held before the call. *)
Theorem rx_burst_fills_prefix_only :
  NoDup (firstn (Z.to_nat actual) filled)
  /\ (forall h, In h (firstn (Z.to_nat actual) filled) ->
        Nic.owns (device w) h = true
        /\ Nic.owns (device (after o)) h = false)
  /\ (forall i, (Z.to_nat actual <= i)%nat ->
        nth_error filled i = nth_error rx_pkts i)
  /\ length filled = length rx_pkts.
Proof.
  destruct rx_filled_shape as [Hlen [Hfst Hskp]].
  destruct rx_actual as [Ea _].
  rewrite Ea, Nat2Z.id, Hfst.
  destruct (flat_map_set_queue (fun q => q) port_id queue_id pending
              (skipn k pending) (Nic.rxq (device w)) configured)
    as [l1 [l2 [E1 E2]]].
  assert (Hheld : Nic.held (device w)
                  = l1 ++ (firstn k pending ++ skipn k pending)
                       ++ l2 ++ flat_map (fun e => Nic.tx_ring (snd e))
                                 (Nic.txq (device w))).
  { unfold Nic.held. rewrite E1, firstn_skipn, <- !app_assoc. reflexivity. }
  assert (Hafter : Nic.held (device (after o))
                   = l1 ++ skipn k pending
                        ++ l2 ++ flat_map (fun e => Nic.tx_ring (snd e))
                                  (Nic.txq (device w))).
  { subst o. rewrite exec_rx_configured. unfold Nic.held. cbn.
    rewrite E2, <- !app_assoc. reflexivity. }
  pose proof one_owner as N. unfold Nic.single_owner in N. rewrite Hheld in N.
  repeat split.
  - apply NoDup_app_remove_l in N. rewrite <- app_assoc in N.
    apply NoDup_app_remove_r in N. exact N.
  - apply owns_In. rewrite Hheld.
    apply in_or_app. right. apply in_or_app. left.
    apply in_or_app. left. exact H.
  - apply owns_not_In. rewrite Hafter. intros Hin.
    apply in_app_or in Hin. destruct Hin as [Hin|Hin].
    + apply (nodup_app_apart _ _ h N Hin).
      apply in_or_app. left. apply in_or_app. left. exact H.
    + apply NoDup_app_remove_l in N. rewrite <- app_assoc in N.
      apply (nodup_app_apart _ _ h N H). exact Hin.
  - intros i Hi.
    rewrite <- (firstn_skipn k filled), <- (firstn_skipn k rx_pkts) at 1.
    rewrite Hskp.
    assert (Lf : length (firstn k filled) = k)
      by (rewrite length_firstn; destruct rx_k_bounds; lia).
    assert (Lr : length (firstn k rx_pkts) = k)
      by (rewrite length_firstn; destruct rx_k_bounds; lia).
    rewrite !nth_error_app2 by lia. rewrite Lf, Lr. reflexivity.
  - exact Hlen.
Qed.

End Receive.

Section Transmit.

Variable c : lcore.
Variable w : world Nic.state.
Variables port_id queue_id : Z.
Variable q : Nic.tx_queue.
Variable tx_pkts : list mbuf.
Variable nb_pkts : Z.

Hypothesis port_ok : is_uint16 port_id.
Hypothesis queue_ok : is_uint16 queue_id.
Hypothesis configured :
  Nic.find_queue port_id queue_id (Nic.txq (device w)) = Some q.

Let k := Nat.min (Z.to_nat (to_uint16 nb_pkts)) (Nic.tx_room q).

Lemma exec_tx_configured :
  exec Nic.drv c (wrte_eth_tx_burst port_id queue_id tx_pkts nb_pkts) w =
  mkOutcome
    (to_uint16 (Z.of_nat k), tx_pkts)
    (mkWorld (per_lcore_rte_errno w)
       (Nic.mkState
          (Nic.rxq (device w))
          (Nic.set_queue port_id queue_id
             (Nic.mkTx (Nic.tx_ring q ++ firstn k tx_pkts) (Nic.tx_room q - k))
             (Nic.txq (device w)))))
    [call_tx_burst port_id queue_id tx_pkts (to_uint16 nb_pkts)].
Proof.
  rewrite exec_wrte_eth_tx_burst.
  rewrite (to_uint16_id _ port_ok), (to_uint16_id _ queue_ok).
  cbn [rte_eth_tx_burst Nic.drv]. unfold Nic.tx_burst.
  rewrite configured. reflexivity.
Qed.

(** The caller states the count, holds that many handles in the
    array, owns each of them, and has put none in twice. *)
Hypothesis count_ok : 0 <= nb_pkts.
Hypothesis capacity_ok : nb_pkts <= Z.of_nat (length tx_pkts).
Hypothesis caller_owns :
  forall h, In h (firstn (Z.to_nat nb_pkts) tx_pkts) ->
            Nic.owns (device w) h = false.
Hypothesis no_alias : NoDup (firstn (Z.to_nat nb_pkts) tx_pkts).

Let o := exec Nic.drv c (wrte_eth_tx_burst port_id queue_id tx_pkts nb_pkts) w.
Let actual := fst (result o).
Let accepted := firstn (Z.to_nat actual) tx_pkts.
Let kept := skipn (Z.to_nat actual) (firstn (Z.to_nat nb_pkts) tx_pkts).

(** C2: on a configured (port, queue), the transmit wrapper returns a
    count between zero and the request.  The handles accepted are
    exactly the first [actual] of the array, in order, and the device
    holds them afterwards; the other [nb_pkts - actual] handles of the
    request are not held by the device, so they stay with the caller,
    and the array is as it was. *)
Theorem tx_burst_accepts_prefix :
  0 <= actual <= nb_pkts
  /\ snd (result o) = tx_pkts
  /\ Z.of_nat (length accepted) = actual
  /\ Z.of_nat (length kept) = nb_pkts - actual
  /\ Nic.find_queue port_id queue_id (Nic.txq (device (after o)))
     = Some (Nic.mkTx (Nic.tx_ring q ++ accepted)
                      (Nic.tx_room q - Z.to_nat actual))
  /\ (forall h, In h accepted -> Nic.owns (device (after o)) h = true)
  /\ (forall h, In h kept -> Nic.owns (device (after o)) h = false).
Proof.
  destruct (burst_count_fits nb_pkts (Nic.tx_room q) count_ok)
    as [Efit [Hk [Hroom Hn]]].
  fold k in Efit, Hk, Hroom, Hn.
  assert (Ea : actual = Z.of_nat k).
  { subst actual o. rewrite exec_tx_configured. cbn. exact Efit. }
  subst accepted kept. rewrite Ea, Nat2Z.id.
  set (new := Nic.mkTx (Nic.tx_ring q ++ firstn k tx_pkts) (Nic.tx_room q - k)).
  destruct (flat_map_set_queue Nic.tx_ring port_id queue_id q new
              (Nic.txq (device w)) configured) as [l1 [l2 [E1 E2]]].
  assert (Hafter : Nic.held (device (after o))
                   = flat_map (fun e => snd e) (Nic.rxq (device w))
                     ++ l1 ++ (Nic.tx_ring q ++ firstn k tx_pkts) ++ l2).
  { subst o. rewrite exec_tx_configured. unfold Nic.held. cbn.
    fold new. rewrite E2. reflexivity. }
  assert (Hbefore : Nic.held (device w)
                    = flat_map (fun e => snd e) (Nic.rxq (device w))
                      ++ l1 ++ Nic.tx_ring q ++ l2).
  { unfold Nic.held. rewrite E1. reflexivity. }
  repeat apply conj.
  - lia.
  - lia.
  - subst o. rewrite exec_tx_configured. reflexivity.
  - rewrite length_firstn. lia.
  - rewrite length_skipn, length_firstn. lia.
  - subst o. rewrite exec_tx_configured. cbn.
    apply (find_queue_set_queue port_id queue_id q), configured.
  - intros h Hin. apply owns_In. rewrite Hafter.
    apply in_or_app. right. apply in_or_app. right.
    apply in_or_app. left. apply in_or_app. right. exact Hin.
  - intros h Hin. apply owns_not_In. rewrite Hafter.
    assert (Hreq : In h (firstn (Z.to_nat nb_pkts) tx_pkts)).
    { rewrite <- (firstn_skipn k (firstn (Z.to_nat nb_pkts) tx_pkts)).
      apply in_or_app. right. exact Hin. }
    pose proof (caller_owns h Hreq) as Hfree.
    apply owns_not_In in Hfree. rewrite Hbefore in Hfree.
    intros Hheld. apply Hfree.
    apply in_app_or in Hheld. destruct Hheld as [H|H];
      [apply in_or_app; left; exact H|].
    apply in_app_or in H. destruct H as [H|H];
      [apply in_or_app; right; apply in_or_app; left; exact H|].
    apply in_app_or in H. destruct H as [H|H];
      [|apply in_or_app; right; apply in_or_app; right;
        apply in_or_app; right; exact H].
    apply in_app_or in H. destruct H as [H|H];
      [apply in_or_app; right; apply in_or_app; right;
       apply in_or_app; left; exact H|].
    exfalso.
    pose proof no_alias as N.
    rewrite <- (firstn_skipn k (firstn (Z.to_nat nb_pkts) tx_pkts)) in N.
    rewrite firstn_firstn in N.
    replace (Nat.min k (Z.to_nat nb_pkts)) with k in N by lia.
    exact (nodup_app_apart _ _ h N H Hin).
Qed.

End Transmit.

(** ** The scenarios of the spec, run *)

(** [NoDup] of a closed list of handles. *)
Ltac nodup_by_evaluation :=
  vm_compute;
  repeat (constructor; [cbn; intuition discriminate|]);
  constructor.

(** The device holds none of the handles of a closed list. *)
Ltac free_by_evaluation :=
  let F := fresh "F" in
  let h := fresh "h" in
  let Hin := fresh "Hin" in
  intros h Hin;
  match type of Hin with
  | In _ ?l =>
      match goal with
      | |- Nic.owns ?s _ = false =>
          assert (F : forallb (fun x => negb (Nic.owns s x)) l = true)
            by (vm_compute; reflexivity);
          rewrite forallb_forall in F;
          apply negb_true_iff, (F h Hin)
      end
  end.

Lemma rx_burst_count_within_request_witness :
  let o := exec Nic.drv 0%nat (wrte_eth_rx_burst 0 0 rx_array 64) scenario in
  0 <= fst (result o) <= 64
  /\ length (snd (result o)) = length rx_array
  /\ skipn (Z.to_nat (fst (result o))) (snd (result o))
     = skipn (Z.to_nat (fst (result o))) rx_array.
Proof.
  pose proof (rx_burst_count_within_request 0%nat scenario 0 0 delivered
                rx_array 64) as H.
  destruct H as [H1 [H2 [_ [H4 _]]]].
  - by_evaluation.
  - by_evaluation.
  - reflexivity.
  - lia.
  - vm_compute. discriminate.
  - cbv zeta. repeat split; assumption || apply H1.
Defined.

Lemma rx_burst_fills_prefix_only_witness :
  let o := exec Nic.drv 0%nat (wrte_eth_rx_burst 0 0 rx_array 64) scenario in
  NoDup (firstn (Z.to_nat (fst (result o))) (snd (result o)))
  /\ forall i, (Z.to_nat (fst (result o)) <= i)%nat ->
               nth_error (snd (result o)) i = nth_error rx_array i.
Proof.
  pose proof (rx_burst_fills_prefix_only 0%nat scenario 0 0 delivered
                rx_array 64) as H.
  destruct H as [H1 [_ [H3 _]]].
  - by_evaluation.
  - by_evaluation.
  - reflexivity.
  - lia.
  - vm_compute. discriminate.
  - unfold Nic.single_owner. nodup_by_evaluation.
  - cbv zeta. split; assumption.
Defined.

Lemma tx_burst_accepts_prefix_witness :
  let o := exec Nic.drv 0%nat (wrte_eth_tx_burst 0 1 tx_array 50) scenario in
  0 <= fst (result o) <= 50 /\ snd (result o) = tx_array.
Proof.
  pose proof (tx_burst_accepts_prefix 0%nat scenario 0 1 (Nic.mkTx [] 10)
                tx_array 50) as H.
  destruct H as [H1 [H2 _]].
  - by_evaluation.
  - by_evaluation.
  - reflexivity.
  - lia.
  - vm_compute. discriminate.
  - free_by_evaluation.
  - nodup_by_evaluation.
  - cbv zeta. split; assumption.
Defined.

(** 32 packets queued, 64 requested: 32 received, in delivery order, the
    other 32 slots as they were, the queue drained. *)
Example scenario_receive :
  let o := exec Nic.drv 0%nat (wrte_eth_rx_burst 0 0 rx_array 64) scenario in
  fst (result o) = 32
  /\ firstn 32 (snd (result o)) = delivered
  /\ skipn 32 (snd (result o)) = skipn 32 rx_array
  /\ Nic.find_queue 0 0 (Nic.rxq (device (after o))) = Some [].
Proof. vm_compute. repeat split; reflexivity. Qed.

(** Room for 10 descriptors, 50 submitted: 10 accepted, the first 10. *)
Example scenario_transmit :
  let o := exec Nic.drv 0%nat (wrte_eth_tx_burst 0 1 tx_array 50) scenario in
  fst (result o) = 10
  /\ snd (result o) = tx_array
  /\ Nic.find_queue 0 1 (Nic.txq (device (after o)))
     = Some (Nic.mkTx (firstn 10 tx_array) 0)
  /\ forallb (Nic.owns (device (after o))) (firstn 10 tx_array) = true
  /\ existsb (Nic.owns (device (after o))) (skipn 10 tx_array) = false.
Proof. vm_compute. repeat split; reflexivity. Qed.

(** Nothing pending: zero again and again, and nothing changes. *)
Example scenario_empty_queue :
  let idle := after (exec Nic.drv 0%nat (wrte_eth_rx_burst 0 0 rx_array 64)
                       scenario) in
  let o := exec Nic.drv 0%nat (wrte_eth_rx_burst 0 0 rx_array 64) idle in
  result o = (0, rx_array)
  /\ device (after o) = device idle
  /\ per_lcore_rte_errno (after o) 0%nat = 0.
Proof. vm_compute. repeat split; reflexivity. Qed.

(** Checksum and segmentation offload combined, then tested. *)
Example scenario_offloads :
  let value := offload_value RTE_ETH_TX_OFFLOAD in
  let request := offload_union (value TCP_CKSUM) (value TCP_TSO) in
  request = 40
  /\ offload_test request (value TCP_CKSUM) = true
  /\ offload_test request (value TCP_TSO) = true
  /\ offload_test request (value UDP_CKSUM) = false.
Proof. vm_compute. repeat split; reflexivity. Qed.

(** * Further properties of the wrappers *)

Section WrapperMore.

Context {D : Type}.
Variable drv : driver D.
Variable c : lcore.
Variable w : world D.
Variables port_id queue_id : Z.
Variable pkts : list mbuf.
Variable nb_pkts : Z.

Let p := to_uint16 port_id.
Let q := to_uint16 queue_id.
Let n := to_uint16 nb_pkts.
Let drx := rte_eth_rx_burst drv c w p q pkts n.
Let dtx := rte_eth_tx_burst drv c w p q pkts n.
Let rx := exec drv c (wrte_eth_rx_burst port_id queue_id pkts nb_pkts) w.
Let tx := exec drv c (wrte_eth_tx_burst port_id queue_id pkts nb_pkts) w.



(** The wrappers keep the bound of the driver.  When the driver returns
    no more than the count it was asked for, a wrapper called with a
    count that is not negative returns the driver's count untruncated,
    and that count is at most the caller's; a request that is a multiple
    of 65536 reaches the driver as zero and returns zero. *)
Theorem wrte_burst_keeps_driver_bound :
  0 <= nb_pkts ->
  0 <= fst (fst drx) <= n ->
  0 <= fst (fst dtx) <= n ->
  (fst (result rx) = fst (fst drx) /\ 0 <= fst (result rx) <= nb_pkts)
  /\ (fst (result tx) = fst (fst dtx) /\ 0 <= fst (result tx) <= nb_pkts)
  /\ (nb_pkts mod 65536 = 0 ->
        fst (result rx) = 0 /\ fst (result tx) = 0).
Proof.
  intros Hn Hrx Htx.
  pose proof (to_uint16_range nb_pkts) as Hr.
  pose proof (to_uint16_le nb_pkts Hn) as Hle.
  fold n in Hr, Hle. unfold is_uint16 in Hr.
  assert (Erx : fst (result rx) = fst (fst drx)).
  { subst rx drx p q n. rewrite exec_wrte_eth_rx_burst.
    destruct (rte_eth_rx_burst drv c w _ _ pkts _) as [[r1 b1] w1].
    cbn in *. apply to_uint16_id. unfold is_uint16. lia. }
  assert (Etx : fst (result tx) = fst (fst dtx)).
  { subst tx dtx p q n. rewrite exec_wrte_eth_tx_burst.
    destruct (rte_eth_tx_burst drv c w _ _ pkts _) as [[r2 b2] w2].
    cbn in *. apply to_uint16_id. unfold is_uint16. lia. }
  rewrite Erx, Etx.
  repeat split; try lia.
  - assert (n = 0) by (subst n; unfold to_uint16; exact H). lia.
  - assert (n = 0) by (subst n; unfold to_uint16; exact H). lia.
Qed.

End WrapperMore.


Lemma wrte_burst_keeps_driver_bound_witness :
  let rx := exec Nic.drv 0%nat (wrte_eth_rx_burst 0 0 rx_array 64) scenario in
  fst (result rx) = fst (fst (Nic.rx_burst 0%nat scenario 0 0 rx_array 64))
  /\ 0 <= fst (result rx) <= 64.
Proof.
  apply (wrte_burst_keeps_driver_bound Nic.drv 0%nat scenario 0 0 rx_array 64);
    by_evaluation.
Defined.

(** * Further properties of the offload flags *)

Lemma to_uint64_land_ones x : to_uint64 x = Z.land x (Z.ones 64).
Proof. unfold to_uint64. rewrite Z.land_ones by lia. reflexivity. Qed.

Lemma to_uint64_lor a b :
  to_uint64 (Z.lor a b) = Z.lor (to_uint64 a) (to_uint64 b).
Proof. rewrite !to_uint64_land_ones. apply Z.land_lor_distr_l. Qed.

Lemma to_uint64_idem x : to_uint64 (to_uint64 x) = to_uint64 x.
Proof. apply to_uint64_id, to_uint64_range. Qed.

Lemma land_to_uint64 x f : is_uint64 f -> Z.land (to_uint64 x) f = Z.land x f.
Proof.
  intros Hf. rewrite to_uint64_land_ones, <- Z.land_assoc.
  rewrite (Z.land_comm (Z.ones 64) f), <- to_uint64_land_ones.
  rewrite (to_uint64_id f Hf). reflexivity.
Qed.

Lemma existsb_same_members {A} (p : A -> bool) (l1 l2 : list A) :
  (forall x, In x l1 <-> In x l2) -> existsb p l1 = existsb p l2.
Proof.
  intros H. apply eq_iff_eq_true. rewrite !existsb_exists.
  split; intros [x [Hx Px]]; exists x; (split; [apply H, Hx | exact Px]).
Qed.

Section OffloadMore.

Variable macro : wrte_eth_tx_offload -> Z.

Let value := offload_value macro.

Lemma land_offload_union (a b f : Z) :
  is_uint64 f ->
  Z.land (offload_union a b) f = Z.lor (Z.land a f) (Z.land b f).
Proof.
  intros Hf. unfold offload_union.
  rewrite land_to_uint64 by exact Hf. apply Z.land_lor_distr_l.
Qed.

Lemma lor_nonzero (x y : Z) :
  negb (Z.lor x y =? 0) = negb (x =? 0) || negb (y =? 0).
Proof.
  rewrite <- negb_andb. f_equal. apply eq_iff_eq_true.
  rewrite andb_true_iff, !Z.eqb_eq. apply Z.lor_eq_0_iff.
Qed.

(** The union of offload values is associative, stays within 64 bits,
    and has [0] (no offload) as its neutral element on enumerator
    values, whatever the values of the driver's macros. *)
Theorem offload_union_assoc_neutral (a b d : Z) (F : wrte_eth_tx_offload) :
  offload_union (offload_union a b) d = offload_union a (offload_union b d)
  /\ is_uint64 (offload_union a b)
  /\ offload_union 0 (value F) = value F
  /\ offload_union (value F) 0 = value F.
Proof.
  unfold offload_union. repeat split.
  - rewrite !to_uint64_lor, !to_uint64_idem. apply eq_sym, Z.lor_assoc.
  - apply to_uint64_range.
  - apply to_uint64_range.
  - rewrite Z.lor_0_l. apply to_uint64_idem.
  - rewrite Z.lor_0_r. apply to_uint64_idem.
Qed.

(** A flag is present in a union exactly when it is present in one of
    the two operands: combining requests neither loses nor invents a
    flag, whatever the values of the driver's macros. *)
Theorem offload_test_union (a b : Z) (F : wrte_eth_tx_offload) :
  offload_test (offload_union a b) (value F)
  = offload_test a (value F) || offload_test b (value F).
Proof.
  unfold offload_test.
  rewrite land_offload_union by apply to_uint64_range.
  apply lor_nonzero.
Qed.

Lemma request_is_uint64 l : is_uint64 (offload_request macro l).
Proof.
  destruct l as [|f l]; cbn.
  - unfold is_uint64. lia.
  - apply to_uint64_range.
Qed.

Lemma request_testbit l i :
  Z.testbit (offload_request macro l) i
  = existsb (fun f => Z.testbit (value f) i) l.
Proof.
  induction l as [|f l IH]; cbn.
  - apply Z.bits_0.
  - fold (offload_request macro l).
    rewrite offload_union_lor
      by (apply to_uint64_range || apply request_is_uint64).
    rewrite Z.lor_spec, IH. reflexivity.
Qed.

(** A request built from a list of offloads depends only on which
    offloads are listed: their order and repetitions do not matter.  It
    fits 64 bits, and a flag tests as present in it exactly when it
    tests as present in the value of one of the listed offloads. *)
Theorem offload_request_same_members (l1 l2 : list wrte_eth_tx_offload)
    (F : wrte_eth_tx_offload) :
  (forall f, In f l1 <-> In f l2) ->
  offload_request macro l1 = offload_request macro l2
  /\ is_uint64 (offload_request macro l1)
  /\ offload_test (offload_request macro l1) (value F)
     = existsb (fun f => offload_test (value f) (value F)) l1.
Proof.
  intros H. repeat apply conj.
  - apply Z.bits_inj'. intros i _.
    rewrite !request_testbit. apply existsb_same_members, H.
  - apply (proj1 (request_is_uint64 l1)).
  - apply (proj2 (request_is_uint64 l1)).
  - clear H. induction l1 as [|f l IH]; cbn.
    + reflexivity.
    + fold (offload_request macro l).
      rewrite <- IH. unfold offload_test at 1.
      rewrite land_offload_union by apply to_uint64_range.
      apply lor_nonzero.
Qed.

End OffloadMore.

(** Checksum and segmentation offload, listed in either order and with
    a repetition, give the same request. *)
Lemma offload_request_same_members_witness :
  offload_request RTE_ETH_TX_OFFLOAD [TCP_CKSUM; TCP_TSO]
  = offload_request RTE_ETH_TX_OFFLOAD [TCP_TSO; TCP_CKSUM; TCP_TSO].
Proof.
  apply (offload_request_same_members RTE_ETH_TX_OFFLOAD
           [TCP_CKSUM; TCP_TSO] [TCP_TSO; TCP_CKSUM; TCP_TSO] TCP_TSO).
  intros f. cbn. tauto.
Defined.
